(** * offline_ai_db: the SQLite-backed catalogue of AI records

    A shallow embedding of [MultiAIDatabase] (src/offline_ai_db.py).  The
    Python methods only issue SQL statements, so the embedding interprets
    those statements over an explicit database value:

    - the table [ai_records] is a finite map from rowid to row;
    - [AUTOINCREMENT] is the high-water mark kept in [sqlite_sequence];
    - the external-content FTS5 table [ai_records_fts] is its inverted index
      (one posting per token occurrence) together with its docsize table;
    - the three triggers are functions on the database, fired by the
      statement that the schema attaches them to;
    - a connection carries the handle's view of the database, the last
      committed database and the number of clock readings made so far.

    What SQLite leaves to the FTS5 build (tokenizer, query parser, query
    evaluation, the bm25 ranking and its floating-point result) and the wall
    clock are the fields of the class [Engine].

    Scope: integers handed to a statement are SQLite integers and strings
    are text that SQLite stores as given; the engine reports no storage
    failure, so a statement either is refused for its MATCH expression or
    runs to its end. *)

From Stdlib Require Import Ascii.
From stdpp Require Import base option list gmap sets strings sorting pretty.

Local Open Scope Z_scope.

(** ** Data model *)

(** [AIRecord]: the frozen dataclass of five text fields. *)
Record AIRecord := {
  name : string;
  provider : string;
  description : string;
  capabilities : string;
  tags : string;
}.

(** A row of [ai_records] without its [id], which is the key of the table. *)
Record row := {
  col_name : string;
  col_provider : string;
  col_description : string;
  col_capabilities : string;
  col_tags : string;
  col_created_at : string;
}.

(** The five values that the triggers hand to the full-text index. *)
Definition indexed_values (r : row) : list string :=
  [col_name r; col_provider r; col_description r; col_capabilities r; col_tags r].

(** One occurrence of a token in the inverted index. *)
Record posting := {
  p_rowid : Z;
  p_col : nat;
  p_pos : nat;
  p_term : string;
}.

(** [ai_records_fts]: the inverted index and the docsize table (one entry per
    indexed rowid, holding the token count of each column). *)
Record fts5_index := {
  fts_postings : list posting;
  fts_docsize : gmap Z (list nat);
}.

Record database := {
  ai_records : gmap Z row;
  sqlite_sequence : Z;
  ai_records_fts : fts5_index;
}.

(** [sqlite3.Connection]: statements act on [db]; [commit] copies it to
    [durable]; [clock_reads] counts the evaluations of CURRENT_TIMESTAMP. *)
Record conn := {
  db : database;
  durable : database;
  clock_reads : nat;
}.

(** [sqlite3.OperationalError], the exception of a statement that SQLite
    refuses. *)
Inductive error :=
  | OperationalError.

Inductive outcome (A : Type) :=
  | Return (a : A)
  | Raise (e : error).
Arguments Return {A} a.
Arguments Raise {A} e.

(** ** The parts of SQLite that the program does not fix *)

Class Engine := {
  (** CURRENT_TIMESTAMP at the n-th reading of the clock *)
  current_timestamp : nat → string;
  (** the tokenizer of the FTS5 table *)
  fts5_tokenize : string → list string;
  (** parsed MATCH expressions; [None] is a syntax error *)
  fts5_expr : Type;
  fts5_parse : string → option fts5_expr;
  (** does the expression hold of a document, given as its postings *)
  fts5_eval : fts5_expr → list posting → bool;
  (** the REAL values returned by bm25() and their ordering under ORDER BY *)
  score : Type;
  score_le : relation score;
  score_le_dec :: RelDecision score_le;
  score_le_trans :: Transitive score_le;
  score_le_total :: Total score_le;
  bm25 : fts5_index → fts5_expr → Z → score;
}.

(** ** A state and exception monad over the connection *)

Definition M (A : Type) : Type := conn → outcome A * conn.

Definition ret {A} (a : A) : M A := λ c, (Return a, c).

Definition raise {A} (e : error) : M A := λ c, (Raise e, c).

Definition bind {A B} (m : M A) (k : A → M B) : M B :=
  λ c, match m c with
       | (Return a, c') => k a c'
       | (Raise e, c') => (Raise e, c')
       end.

Notation "x <- m ;; k" := (bind m (λ x, k))
  (at level 100, m at next level, right associativity).
Notation "m ;;; k" := (bind m (λ _, k))
  (at level 100, right associativity).

Section Model.
Context {engine : Engine}.

(** *** Result values and rows ([sqlite3.Row] turned into a [dict]) *)

Inductive value :=
  | VNull
  | VInt (z : Z)
  | VReal (x : score)
  | VText (s : string).

Definition dict := list (string * value).

Fixpoint dict_get (k : string) (d : dict) : option value :=
  match d with
  | [] => None
  | (k', v) :: d' => if decide (k' = k) then Some v else dict_get k d'
  end.

(** *** The FTS5 table *)

Definition column_postings (rowid : Z) (col : nat) (v : string) : list posting :=
  imap (λ pos t, {| p_rowid := rowid; p_col := col; p_pos := pos; p_term := t |})
       (fts5_tokenize v).

Definition row_postings (rowid : Z) (vals : list string) : list posting :=
  mjoin (imap (column_postings rowid) vals).

Definition row_terms (vals : list string) : list string :=
  vals ≫= fts5_tokenize.

Definition row_sizes (vals : list string) : list nat :=
  (λ v, length (fts5_tokenize v)) <$> vals.

(** INSERT INTO ai_records_fts(rowid, ...) VALUES (...) *)
Definition fts5_insert (rowid : Z) (vals : list string) (f : fts5_index) : fts5_index :=
  {| fts_postings := fts_postings f ++ row_postings rowid vals;
     fts_docsize := <[rowid := row_sizes vals]> (fts_docsize f) |}.

(** INSERT INTO ai_records_fts(ai_records_fts, rowid, ...) VALUES ('delete', ...):
    under every term of the given values the rowid is struck from the
    index, and its docsize entry is dropped. *)
Definition fts5_delete (rowid : Z) (vals : list string) (f : fts5_index) : fts5_index :=
  {| fts_postings :=
       filter (λ p, ¬ (p_rowid p = rowid ∧ p_term p ∈ row_terms vals)) (fts_postings f);
     fts_docsize := delete rowid (fts_docsize f) |}.

(** The postings of one rowid: its index entry. *)
Definition fts5_entry (f : fts5_index) (rowid : Z) : list posting :=
  filter (λ p, p_rowid p = rowid) (fts_postings f).

(** The rowids that occur in the inverted index, ascending. *)
Definition fts5_rowids (f : fts5_index) : list Z :=
  merge_sort Z.le (elements (list_to_set (p_rowid <$> fts_postings f) : gset Z)).

(** ai_records_fts MATCH e *)
Definition fts5_match (f : fts5_index) (e : fts5_expr) : list Z :=
  filter (λ i, fts5_eval e (fts5_entry f i) = true) (fts5_rowids f).

(** *** The schema: triggers *)

Definition with_fts (g : fts5_index → fts5_index) (d : database) : database :=
  {| ai_records := ai_records d;
     sqlite_sequence := sqlite_sequence d;
     ai_records_fts := g (ai_records_fts d) |}.

(** CREATE TRIGGER ai_records_ai AFTER INSERT ON ai_records *)
Definition ai_records_ai (new_id : Z) (new : row) : database → database :=
  with_fts (fts5_insert new_id (indexed_values new)).

(** CREATE TRIGGER ai_records_ad AFTER DELETE ON ai_records *)
Definition ai_records_ad (old_id : Z) (old : row) : database → database :=
  with_fts (fts5_delete old_id (indexed_values old)).


(** The table, the FTS5 table and the triggers, just created. *)
Definition empty_database : database :=
  {| ai_records := ∅;
     sqlite_sequence := 0;
     ai_records_fts := {| fts_postings := []; fts_docsize := ∅ |} |}.

(** [_initialize_schema]: each CREATE ... IF NOT EXISTS leaves an object
    that the file already has as it is and creates it empty otherwise; the
    method ends with a commit. *)
Definition _initialize_schema (file : option database) : database :=
  match file with
  | Some d => d
  | None => empty_database
  end.

(** [MultiAIDatabase(db_path)], where [file] is what [db_path] holds. *)
Definition open_database (file : option database) : conn :=
  let d := _initialize_schema file in
  {| db := d; durable := d; clock_reads := 0%nat |}.

(** A handle on a path that holds no database yet. *)
Definition connect : conn := open_database None.

(** *** Statements *)

Definition max_rowid (t : gmap Z row) : Z :=
  foldr Z.max 0 (elements (dom t)).

(** AUTOINCREMENT: one more than the largest rowid that ever existed. *)
Definition next_rowid (d : database) : Z :=
  Z.max (sqlite_sequence d) (max_rowid (ai_records d)) + 1.

Definition payload_row (p : string * string * string * string * string)
    (created : string) : row :=
  let '(n, pr, de, ca, ta) := p in
  {| col_name := n; col_provider := pr; col_description := de;
     col_capabilities := ca; col_tags := ta; col_created_at := created |}.

(** INSERT INTO ai_records(name, provider, description, capabilities, tags)
    VALUES (?, ?, ?, ?, ?), with the AFTER INSERT trigger. *)
Definition insert_database (p : string * string * string * string * string)
    (created : string) (d : database) : Z * database :=
  let id := next_rowid d in
  let new := payload_row p created in
  (id, ai_records_ai id new
         {| ai_records := <[id := new]> (ai_records d);
            sqlite_sequence := id;
            ai_records_fts := ai_records_fts d |}).

(** DELETE FROM ai_records WHERE id = ?, with the AFTER DELETE trigger;
    the number of deleted rows comes with the new database. *)
Definition delete_database (record_id : Z) (d : database) : Z * database :=
  match ai_records d !! record_id with
  | Some old =>
      (1, ai_records_ad record_id old
            {| ai_records := delete record_id (ai_records d);
               sqlite_sequence := sqlite_sequence d;
               ai_records_fts := ai_records_fts d |})
  | None => (0, d)
  end.

(** [cursor.execute] of the INSERT; the result is [cursor.lastrowid]. *)
Definition execute_insert (p : string * string * string * string * string) : M Z :=
  λ c, let '(id, d) := insert_database p (current_timestamp (clock_reads c)) (db c) in
       (Return id, {| db := d; durable := durable c; clock_reads := S (clock_reads c) |}).

(** [cursor.executemany] of the INSERT; the result is [cursor.rowcount]. *)
Fixpoint executemany_insert
    (payload : list (string * string * string * string * string)) : M Z :=
  match payload with
  | [] => ret 0
  | p :: rest =>
      _ <- execute_insert p ;;
      n <- executemany_insert rest ;;
      ret (1 + n)
  end.

(** [cursor.execute] of the DELETE; the result is [cursor.rowcount]. *)
Definition execute_delete (record_id : Z) : M Z :=
  λ c, let '(n, d) := delete_database record_id (db c) in
       (Return n, {| db := d; durable := durable c; clock_reads := clock_reads c |}).

(** [self._connection.commit()] *)
Definition commit : M unit :=
  λ c, (Return (), {| db := db c; durable := db c; clock_reads := clock_reads c |}).

(** The connection after a [commit]. *)
Definition commit_state (c : conn) : conn := (commit c).2.

(** *** The public methods *)

Definition add_ai (record : AIRecord) : M Z :=
  id <- execute_insert (name record, provider record, description record,
                        capabilities record, tags record) ;;
  commit ;;;
  ret id.

Definition bulk_add (records : list AIRecord) : M Z :=
  let payload :=
    (λ r, (name r, provider r, description r, capabilities r, tags r)) <$> records in
  rowcount <- executemany_insert payload ;;
  commit ;;;
  ret rowcount.

Definition remove (record_id : Z) : M bool :=
  rowcount <- execute_delete record_id ;;
  commit ;;;
  ret (bool_decide (rowcount > 0)).

(** SELECT id, name, provider, description, capabilities, tags, created_at *)
Definition list_all_dict (ir : Z * row) : dict :=
  [("id", VInt ir.1); ("name", VText (col_name ir.2));
   ("provider", VText (col_provider ir.2));
   ("description", VText (col_description ir.2));
   ("capabilities", VText (col_capabilities ir.2));
   ("tags", VText (col_tags ir.2));
   ("created_at", VText (col_created_at ir.2))]%string.

Definition id_le (a b : Z * row) : Prop := a.1 ≤ b.1.

#[global] Instance id_le_dec : RelDecision id_le :=
  λ a b, decide_rel Z.le a.1 b.1.


(** FROM ai_records ORDER BY id *)
Definition select_ordered_by_id (d : database) : list (Z * row) :=
  merge_sort id_le (map_to_list (ai_records d)).

Definition list_all : M (list dict) :=
  λ c, (Return (list_all_dict <$> select_ordered_by_id (db c)), c).

(** SELECT r.id, r.name, r.provider, r.description, r.capabilities, r.tags,
           bm25(ai_records_fts) AS score *)
Definition search_dict (hit : Z * row * score) : dict :=
  let '(i, r, s) := hit in
  [("id", VInt i); ("name", VText (col_name r));
   ("provider", VText (col_provider r));
   ("description", VText (col_description r));
   ("capabilities", VText (col_capabilities r));
   ("tags", VText (col_tags r));
   ("score", VReal s)]%string.

(** FROM ai_records_fts f JOIN ai_records r ON r.id = f.rowid
    WHERE ai_records_fts MATCH e *)
Definition join_matches (d : database) (e : fts5_expr) : list (Z * row * score) :=
  omap (λ i, r ← ai_records d !! i; Some (i, r, bm25 (ai_records_fts d) e i))
       (fts5_match (ai_records_fts d) e).

Definition by_score (a b : Z * row * score) : Prop := score_le a.2 b.2.

#[global] Instance by_score_dec : RelDecision by_score :=
  λ a b, decide_rel score_le a.2 b.2.

(** LIMIT n: a negative n puts no bound on the number of rows. *)
Definition sql_limit {A} (n : Z) (l : list A) : list A :=
  if decide (n < 0) then l else take (Z.to_nat n) l.

Definition select_search (d : database) (e : fts5_expr) (limit : Z)
    : list (Z * row * score) :=
  sql_limit limit (merge_sort by_score (join_matches d e)).

Definition search (query : string) (limit : Z) : M (list dict) :=
  match fts5_parse query with
  | None => raise OperationalError
  | Some e => λ c, (Return (search_dict <$> select_search (db c) e limit), c)
  end.

(** The default of the [limit] parameter. *)
Definition default_limit : Z := 20.

Definition search_default (query : string) : M (list dict) :=
  search query default_limit.

(** *** Sessions: sequences of calls of the public methods *)

Inductive op :=
  | OpAdd (record : AIRecord)
  | OpBulk (records : list AIRecord)
  | OpRemove (record_id : Z)
  | OpList
  | OpSearch (query : string) (limit : Z).

Definition run_op (o : op) (c : conn) : conn :=
  match o with
  | OpAdd record => (add_ai record c).2
  | OpBulk records => (bulk_add records c).2
  | OpRemove record_id => (remove record_id c).2
  | OpList => (list_all c).2
  | OpSearch query limit => (search query limit c).2
  end.

Definition run (ops : list op) (c : conn) : conn :=
  foldl (flip run_op) c ops.

(** The ids that the calls of [add_ai] in a session return, in call order. *)
Fixpoint returned_ids (ops : list op) (c : conn) : list Z :=
  match ops with
  | [] => []
  | OpAdd record :: ops' =>
      match add_ai record c with
      | (Return id, c') => id :: returned_ids ops' c'
      | (Raise _, c') => returned_ids ops' c'
      end
  | o :: ops' => returned_ids ops' (run_op o c)
  end.

(** The ids given to the rows of one [executemany], in insertion order. *)
Fixpoint executemany_ids
    (payload : list (string * string * string * string * string)) (c : conn) : list Z :=
  match payload with
  | [] => []
  | p :: rest =>
      match execute_insert p c with
      | (Return id, c') => id :: executemany_ids rest c'
      | (Raise _, _) => []
      end
  end.

(** The tuple that [add_ai] and [bulk_add] bind for a record. *)
Definition payload_of (r : AIRecord) : string * string * string * string * string :=
  (name r, provider r, description r, capabilities r, tags r).

(** The rows that a call inserts. *)
Definition op_payload (o : op) : list (string * string * string * string * string) :=
  match o with
  | OpAdd record => [payload_of record]
  | OpBulk records => payload_of <$> records
  | _ => []
  end.

(** Every id that a session gives to a row, by [add_ai] or [bulk_add], in
    insertion order. *)
Fixpoint assigned_ids (ops : list op) (c : conn) : list Z :=
  match ops with
  | [] => []
  | o :: ops' => executemany_ids (op_payload o) c ++ assigned_ids ops' (run_op o c)
  end.

(** *** The consistency contract between table and index *)

(** The table never holds an id above the AUTOINCREMENT mark. *)
Definition sequence_bounds (d : database) : Prop :=
  0 ≤ sqlite_sequence d ∧
  ∀ i, i ∈ dom (ai_records d) → 0 < i ≤ sqlite_sequence d.

(** The index mirrors the table: the same ids, and under each id the
    postings of the current values of its row. *)
Definition index_consistent (d : database) : Prop :=
  dom (fts_docsize (ai_records_fts d)) = dom (ai_records d) ∧
  (∀ i r, ai_records d !! i = Some r →
     fts5_entry (ai_records_fts d) i = row_postings i (indexed_values r) ∧
     fts_docsize (ai_records_fts d) !! i = Some (row_sizes (indexed_values r))) ∧
  (∀ i, ai_records d !! i = None →
     fts5_entry (ai_records_fts d) i = [] ∧
     fts_docsize (ai_records_fts d) !! i = None).

(** A handle between two calls: its database is well formed and nothing
    is pending. *)
Definition conn_ok (c : conn) : Prop :=
  sequence_bounds (db c) ∧ index_consistent (db c) ∧ durable c = db c.







(** The row that [add_ai] stores for a record. *)
Definition stored_row (record : AIRecord) (created : string) : row :=
  {| col_name := name record; col_provider := provider record;
     col_description := description record;
     col_capabilities := capabilities record; col_tags := tags record;
     col_created_at := created |}.

End Model.

(** ** The rest of the program: closing and reopening, the UPDATE trigger at
    work, the command line *)

(** [args.command] with the arguments of its subparser. *)
Inductive command :=
  | CmdAdd (name provider description capabilities tags : string)
  | CmdSearch (query : string) (limit : Z)
  | CmdList
  | CmdRemove (id : Z).

(** The [argparse.Namespace] that [main] works on. *)
Record namespace := {
  args_db : string;
  args_command : command;
}.

(** What a run of the program finds and leaves: the database files by path
    and the number of clock readings made so far. *)
Record world := {
  files : gmap string database;
  clock : nat;
}.

Section Program.
Context {engine : Engine}.

(** [close]: the handle is given up; the file keeps what was committed. *)
Definition close (c : conn) : database := durable c.

(** [MultiAIDatabase(db_path)] when the clock has been read [reads] times. *)
Definition open_at (file : option database) (reads : nat) : conn :=
  let c := open_database file in
  {| db := db c; durable := durable c; clock_reads := reads |}.



(** *** The command line *)

Context (score_text : score → string).

(** [f"{item[k]}"] *)
Definition item (k : string) (d : dict) : string :=
  match dict_get k d with
  | Some (VText s) => s
  | Some (VInt z) => pretty z
  | Some (VReal x) => score_text x
  | Some VNull => "None"
  | None => EmptyString
  end.

(** The four lines printed for one result of [search]. *)
Definition search_lines (d : dict) : list string :=
  ["[" +:+ item "id" d +:+ "] " +:+ item "name" d +:+ " (" +:+ item "provider" d
     +:+ ") - " +:+ item "description" d;
   "  capabilities: " +:+ item "capabilities" d;
   "  tags: " +:+ item "tags" d;
   "  score: " +:+ item "score" d].

(** The line printed for one row of [list_all]. *)
Definition list_line (d : dict) : string :=
  "[" +:+ item "id" d +:+ "] " +:+ item "name" d +:+ " (" +:+ item "provider" d +:+ ")".

(** The body of the [try] of [main]: the method of the command and the lines
    it prints. *)
Definition run_command (cmd : command) : M (list string) :=
  match cmd with
  | CmdAdd n p d ca t =>
      rid <- add_ai {| name := n; provider := p; description := d;
                       capabilities := ca; tags := t |} ;;
      ret ["Added record ID: " +:+ pretty rid]
  | CmdSearch query limit =>
      results <- search query limit ;;
      ret (results ≫= search_lines)
  | CmdList =>
      rows <- list_all ;;
      ret (list_line <$> rows)
  | CmdRemove id =>
      removed <- remove id ;;
      ret [if removed : bool then "Removed" else "Not found"]
  end.

(** [main] on parsed arguments: open the database at [args.db], run the
    command, close in the [finally]. The result is what was printed, or the
    exception that ended the run. *)
Definition main (args : namespace) (w : world) : outcome (list string) * world :=
  let c := open_at (files w !! args_db args) (clock w) in
  let r := run_command (args_command args) c in
  (r.1, {| files := <[args_db args := close r.2]> (files w);
           clock := clock_reads r.2 |}).


(** The database that a handle opened on [path] sees. *)
Definition file_db (w : world) (path : string) : database :=
  _initialize_schema (files w !! path).

(** The method that a command calls. *)
Definition command_op (cmd : command) : op :=
  match cmd with
  | CmdAdd n p d ca t =>
      OpAdd {| name := n; provider := p; description := d;
               capabilities := ca; tags := t |}
  | CmdSearch query limit => OpSearch query limit
  | CmdList => OpList
  | CmdRemove id => OpRemove id
  end.


End Program.

(** ** A small engine to run the model on

    Tokens are the maximal runs of ASCII letters and digits (and of bytes
    above 127), folded to lower case; a query is made of bare words, the
    operators AND, OR and NOT, juxtaposition and parentheses; the rank of a
    row is minus the number of its postings under a term of the query. *)

Module Demo.

Definition is_token_char (a : ascii) : bool :=
  let n := N_of_ascii a in
  ((48 <=? n) && (n <=? 57) || (65 <=? n) && (n <=? 90)
   || (97 <=? n) && (n <=? 122) || (128 <=? n))%N.

Definition fold_case (a : ascii) : ascii :=
  let n := N_of_ascii a in
  if ((65 <=? n) && (n <=? 90))%N then ascii_of_N (n + 32) else a.

Definition flush (cur : string) : list string :=
  if decide (cur = EmptyString) then [] else [cur].

Fixpoint tokens_from (cur : string) (s : string) : list string :=
  match s with
  | EmptyString => flush cur
  | String a s' =>
      if is_token_char a
      then tokens_from (cur +:+ String (fold_case a) EmptyString) s'
      else flush cur ++ tokens_from EmptyString s'
  end.

Definition tokenize (s : string) : list string := tokens_from EmptyString s.

Inductive qtoken :=
  | QWord (w : string)
  | QAnd
  | QOr
  | QNot
  | QOpen
  | QClose.

Definition keyword (w : string) : qtoken :=
  if decide (w = "AND") then QAnd
  else if decide (w = "OR") then QOr
  else if decide (w = "NOT") then QNot
  else QWord w.

Definition flush_word (cur : string) : list qtoken :=
  if decide (cur = EmptyString) then [] else [keyword cur].

Fixpoint lex (cur : string) (s : string) : option (list qtoken) :=
  match s with
  | EmptyString => Some (flush_word cur)
  | String a s' =>
      if is_token_char a then lex (cur +:+ String a EmptyString) s'
      else if decide (a = " "%char)
      then (λ r, flush_word cur ++ r) <$> lex EmptyString s'
      else if decide (a = "("%char)
      then (λ r, flush_word cur ++ QOpen :: r) <$> lex EmptyString s'
      else if decide (a = ")"%char)
      then (λ r, flush_word cur ++ QClose :: r) <$> lex EmptyString s'
      else None
  end.

Inductive expr :=
  | Term (w : string)
  | And (a b : expr)
  | Or (a b : expr)
  | Not (a b : expr).

(** Binding strength, loosest first: OR (4), AND (3), NOT (2),
    juxtaposition (1), a word or a parenthesis (0). *)
Fixpoint parse_level (fuel : nat) (level : nat) (ts : list qtoken)
    : option (expr * list qtoken) :=
  match fuel with
  | O => None
  | S fuel' =>
      match level with
      | O =>
          match ts with
          | QWord w :: ts' => Some (Term w, ts')
          | QOpen :: ts' =>
              match parse_level fuel' 4 ts' with
              | Some (e, QClose :: ts'') => Some (e, ts'')
              | _ => None
              end
          | _ => None
          end
      | S level' =>
          match parse_level fuel' level' ts with
          | Some (e, ts') => parse_rest fuel' level e ts'
          | None => None
          end
      end
  end
with parse_rest (fuel : nat) (level : nat) (e : expr) (ts : list qtoken)
    : option (expr * list qtoken) :=
  match fuel with
  | O => None
  | S fuel' =>
      let continue (mk : expr → expr → expr) (ts' : list qtoken) :=
        match parse_level fuel' (pred level) ts' with
        | Some (e2, ts'') => parse_rest fuel' level (mk e e2) ts''
        | None => None
        end in
      match level, ts with
      | 1%nat, QWord _ :: _ => continue And ts
      | 1%nat, QOpen :: _ => continue And ts
      | 2%nat, QNot :: ts' => continue Not ts'
      | 3%nat, QAnd :: ts' => continue And ts'
      | 4%nat, QOr :: ts' => continue Or ts'
      | _, _ => Some (e, ts)
      end
  end.

Definition parse (query : string) : option expr :=
  match lex EmptyString query with
  | Some ts =>
      match parse_level (10 * length ts + 10) 4 ts with
      | Some (e, []) => Some e
      | _ => None
      end
  | None => None
  end.

Definition has_term (t : string) (doc : list posting) : bool :=
  existsb (λ p, bool_decide (p_term p = t)) doc.

Fixpoint eval (e : expr) (doc : list posting) : bool :=
  match e with
  | Term w =>
      match tokenize w with
      | [t] => has_term t doc
      | _ => false
      end
  | And a b => eval a doc && eval b doc
  | Or a b => eval a doc || eval b doc
  | Not a b => eval a doc && negb (eval b doc)
  end.

Fixpoint expr_terms (e : expr) : list string :=
  match e with
  | Term w => tokenize w
  | And a b | Or a b | Not a b => expr_terms a ++ expr_terms b
  end.

Definition rank (f : fts5_index) (e : expr) (rowid : Z) : Z :=
  - Z.of_nat (length (filter (λ p, p_rowid p = rowid ∧ p_term p ∈ expr_terms e)
                             (fts_postings f))).

Definition digit (n : nat) : string :=
  String (ascii_of_nat (48 + n mod 10)) EmptyString.

(** A clock that advances one second with every reading. *)
Definition timestamp (n : nat) : string :=
  "2024-01-01 00:00:" +:+ digit (n mod 60 / 10) +:+ digit (n mod 60).

Definition engine : Engine :=
  {| current_timestamp := timestamp;
     fts5_tokenize := tokenize;
     fts5_expr := expr;
     fts5_parse := parse;
     fts5_eval := eval;
     score := Z;
     score_le := Z.le;
     bm25 := rank |}.

(** The records of the repository's tests. *)
Definition vision : AIRecord :=
  {| name := "VisionBot"; provider := "LocalLab";
     description := "Image analysis assistant";
     capabilities := "vision,ocr"; tags := "offline,image" |}.

Definition math : AIRecord :=
  {| name := "MathAI"; provider := "EdgeCorp"; description := "Math solver";
     capabilities := "reasoning,algebra"; tags := "offline,math" |}.

Definition code : AIRecord :=
  {| name := "CodeAI"; provider := "EdgeCorp"; description := "Code helper";
     capabilities := "coding,debug"; tags := "offline,dev" |}.

Definition chat : AIRecord :=
  {| name := "ChatAI"; provider := "EdgeCorp"; description := "Chat assistant";
     capabilities := "chat,qa"; tags := "offline,nlp" |}.

(** A new database after [add_ai vision]. *)
Definition one_record : conn := (@add_ai engine vision connect).2.

(** A new database after [bulk_add [math; code]]. *)
Definition two_records : conn := (@bulk_add engine [math; code] connect).2.

(** The text of a score: the rank is an integer. *)
Definition score_text (x : @score engine) : string := pretty (x : Z).

(** No database file yet, the clock not read yet. *)
Definition empty_world : world := {| files := ∅; clock := 0 |}.

(** [add] of the first test record to the database at [ai.db]. *)
Definition add_vision : namespace :=
  {| args_db := "ai.db";
     args_command := CmdAdd (name vision) (provider vision) (description vision)
                            (capabilities vision) (tags vision) |}.


End Demo.

(** * Properties *)

Arguments insert_database : simpl never.
Arguments delete_database : simpl never.
Arguments next_rowid : simpl never.

Section Facts.
Context {engine : Engine}.

(** ** AUTOINCREMENT *)

Lemma foldr_max_ge (l : list Z) (i : Z) : i ∈ l → i ≤ foldr Z.max 0 l.
Proof.
  induction l as [|x l IH]; simpl.
  - by intros ?%elem_of_nil.
  - intros [->|Hi]%elem_of_cons; [lia|]. specialize (IH Hi). lia.
Qed.

Lemma max_rowid_ge (t : gmap Z row) (i : Z) : i ∈ dom t → i ≤ max_rowid t.
Proof. intros Hi. apply foldr_max_ge. by apply elem_of_elements. Qed.

Lemma next_rowid_above (d : database) (i : Z) :
  i ∈ dom (ai_records d) → i < next_rowid d.
Proof. intros Hi%max_rowid_ge. unfold next_rowid. lia. Qed.

Lemma next_rowid_fresh (d : database) : ai_records d !! next_rowid d = None.
Proof.
  apply not_elem_of_dom. intros Hi%next_rowid_above. lia.
Qed.

Lemma foldr_max_le (l : list Z) (n : Z) :
  0 ≤ n → (∀ i, i ∈ l → i ≤ n) → foldr Z.max 0 l ≤ n.
Proof.
  intros Hn. induction l as [|x l IH]; simpl; intros Hl; [done|].
  assert (x ≤ n) by (apply Hl; left).
  assert (foldr Z.max 0 l ≤ n) by (apply IH; intros; apply Hl; by right).
  lia.
Qed.

Lemma next_rowid_bounded (d : database) :
  sequence_bounds d → next_rowid d = sqlite_sequence d + 1.
Proof.
  intros [H0 Hb]. unfold next_rowid.
  assert (max_rowid (ai_records d) ≤ sqlite_sequence d).
  { apply foldr_max_le; [done|]. intros i Hi%elem_of_elements.
    apply Hb in Hi. lia. }
  lia.
Qed.

(** ** The inverted index *)

Lemma row_postings_spec (i : Z) (vals : list string) (p : posting) :
  p ∈ row_postings i vals → p_rowid p = i ∧ p_term p ∈ row_terms vals.
Proof.
  unfold row_postings, row_terms, column_postings.
  intros (l & Hp & Hl)%list_elem_of_join.
  apply elem_of_lookup_imap in Hl as (col & v & -> & Hv).
  apply elem_of_lookup_imap in Hp as (pos & t & -> & Ht). simpl.
  split; [done|]. apply list_elem_of_bind. exists v.
  split; by eapply list_elem_of_lookup_2.
Qed.

Lemma filter_all {A} (P : A → Prop) `{!∀ x, Decision (P x)} (l : list A) :
  (∀ x, x ∈ l → P x) → filter P l = l.
Proof.
  induction l as [|x l IH]; intros Hl; [done|].
  rewrite filter_cons_True; [|apply Hl; left].
  f_equal. apply IH. intros; apply Hl; by right.
Qed.

Lemma filter_none {A} (P : A → Prop) `{!∀ x, Decision (P x)} (l : list A) :
  (∀ x, x ∈ l → ¬ P x) → filter P l = [].
Proof.
  induction l as [|x l IH]; intros Hl; [done|].
  rewrite filter_cons_False; [|apply Hl; left].
  apply IH. intros; apply Hl; by right.
Qed.

Lemma fts5_entry_elem (f : fts5_index) (i : Z) (p : posting) :
  p ∈ fts5_entry f i ↔ p ∈ fts_postings f ∧ p_rowid p = i.
Proof. unfold fts5_entry. rewrite list_elem_of_filter. tauto. Qed.

Lemma fts5_entry_insert (i j : Z) (vals : list string) (f : fts5_index) :
  fts5_entry (fts5_insert i vals f) j =
  fts5_entry f j ++ (if decide (j = i) then row_postings i vals else []).
Proof.
  unfold fts5_entry, fts5_insert. simpl. rewrite filter_app. f_equal.
  case_decide as Hj.
  - subst j. apply filter_all. intros p Hp. by apply row_postings_spec in Hp as [? _].
  - apply filter_none. intros p Hp. apply row_postings_spec in Hp as [? _]. congruence.
Qed.

Lemma fts5_entry_delete_ne (i j : Z) (vals : list string) (f : fts5_index) :
  j ≠ i → fts5_entry (fts5_delete i vals f) j = fts5_entry f j.
Proof.
  intros Hj. unfold fts5_entry, fts5_delete. simpl.
  rewrite list_filter_filter. apply list_filter_iff. intros p.
  split; [tauto|]. intros Hp. split; [done|]. intros [Hi _]. congruence.
Qed.

Lemma fts5_entry_delete_eq (i : Z) (vals : list string) (f : fts5_index) :
  fts5_entry (fts5_delete i vals f) i =
  filter (λ p, p_term p ∉ row_terms vals) (fts5_entry f i).
Proof.
  unfold fts5_entry, fts5_delete. simpl.
  rewrite !list_filter_filter. apply list_filter_iff. intros p. tauto.
Qed.

(** ** Statements keep the table and the index in step *)

Lemma insert_database_eq p created (d : database) :
  insert_database p created d =
  (next_rowid d,
   {| ai_records := <[next_rowid d := payload_row p created]> (ai_records d);
      sqlite_sequence := next_rowid d;
      ai_records_fts :=
        fts5_insert (next_rowid d) (indexed_values (payload_row p created))
                    (ai_records_fts d) |}).
Proof. reflexivity. Qed.

Lemma delete_database_Some (i : Z) (old : row) (d : database) :
  ai_records d !! i = Some old →
  delete_database i d =
  (1, {| ai_records := delete i (ai_records d);
         sqlite_sequence := sqlite_sequence d;
         ai_records_fts := fts5_delete i (indexed_values old) (ai_records_fts d) |}).
Proof. intros Hi. unfold delete_database. by rewrite Hi. Qed.

Lemma delete_database_None (i : Z) (d : database) :
  ai_records d !! i = None → delete_database i d = (0, d).
Proof. intros Hi. unfold delete_database. by rewrite Hi. Qed.

Lemma insert_sequence_bounds p created (d : database) :
  sequence_bounds d → sequence_bounds (insert_database p created d).2.
Proof.
  intros Hb. pose proof (next_rowid_bounded d Hb) as Hn.
  destruct Hb as [H0 Hb]. rewrite insert_database_eq. split; simpl; [lia|].
  intros i. rewrite dom_insert_L, elem_of_union, elem_of_singleton.
  intros [->|Hi%Hb]; lia.
Qed.

Lemma delete_sequence_bounds (i : Z) (d : database) :
  sequence_bounds d → sequence_bounds (delete_database i d).2.
Proof.
  intros [H0 Hb]. destruct (ai_records d !! i) as [old|] eqn:Hi.
  - rewrite (delete_database_Some _ _ _ Hi). split; simpl; [done|].
    intros j. rewrite dom_delete_L, elem_of_difference. intros [Hj _]. by apply Hb.
  - by rewrite (delete_database_None _ _ Hi).
Qed.

Lemma insert_index_consistent p created (d : database) :
  index_consistent d → index_consistent (insert_database p created d).2.
Proof.
  intros (Hdom & Hlive & Hdead). rewrite insert_database_eq.
  pose proof (next_rowid_fresh d) as Hfresh.
  set (id := next_rowid d) in *. set (new := payload_row p created).
  split; [|split]; simpl.
  - by rewrite !dom_insert_L, Hdom.
  - intros i r. rewrite fts5_entry_insert. destruct (decide (i = id)) as [->|Hi].
    + rewrite !lookup_insert_eq. intros [= <-].
      destruct (Hdead id Hfresh) as [-> _]. done.
    + rewrite !lookup_insert_ne by done. rewrite app_nil_r. apply Hlive.
  - intros i. rewrite fts5_entry_insert. destruct (decide (i = id)) as [->|Hi].
    + by rewrite lookup_insert_eq.
    + rewrite !lookup_insert_ne by done. rewrite app_nil_r. apply Hdead.
Qed.

Lemma delete_index_consistent (i : Z) (d : database) :
  index_consistent d → index_consistent (delete_database i d).2.
Proof.
  intros (Hdom & Hlive & Hdead). destruct (ai_records d !! i) as [old|] eqn:Hi.
  2: { by rewrite (delete_database_None _ _ Hi). }
  rewrite (delete_database_Some _ _ _ Hi).
  split; [|split]; simpl.
  - by rewrite !dom_delete_L, Hdom.
  - intros j r [Hj Hr]%lookup_delete_Some.
    rewrite fts5_entry_delete_ne, lookup_delete_ne by done. by apply Hlive.
  - intros j. destruct (decide (j = i)) as [->|Hj].
    + intros _. rewrite fts5_entry_delete_eq, lookup_delete_eq.
      destruct (Hlive i old Hi) as [-> _]. split; [|done].
      apply filter_none. intros q Hq%row_postings_spec. tauto.
    + rewrite lookup_delete_ne by done. intros Hr.
      rewrite fts5_entry_delete_ne, lookup_delete_ne by done. by apply Hdead.
Qed.

(** ** The methods, as equations *)

Lemma add_ai_eq (record : AIRecord) (c : conn) :
  add_ai record c =
  let d := (insert_database
              (name record, provider record, description record,
               capabilities record, tags record)
              (current_timestamp (clock_reads c)) (db c)).2 in
  (Return (next_rowid (db c)),
   {| db := d; durable := d; clock_reads := S (clock_reads c) |}).
Proof. reflexivity. Qed.

Lemma remove_eq (record_id : Z) (c : conn) :
  remove record_id c =
  let d := (delete_database record_id (db c)).2 in
  (Return (bool_decide (is_Some (ai_records (db c) !! record_id))),
   {| db := d; durable := d; clock_reads := clock_reads c |}).
Proof.
  unfold remove, bind, execute_delete, commit, ret, delete_database.
  by destruct (ai_records (db c) !! record_id) as [old|].
Qed.


Lemma search_state (query : string) (limit : Z) (c : conn) :
  (search query limit c).2 = c.
Proof. unfold search. by destruct (fts5_parse query). Qed.

Lemma executemany_insert_cons p rest (c : conn) :
  executemany_insert (p :: rest) c =
  let r := executemany_insert rest (execute_insert p c).2 in
  match r.1 with
  | Return n => (Return (1 + n), r.2)
  | Raise e => (Raise e, r.2)
  end.
Proof.
  simpl. unfold bind, ret, execute_insert at 1. simpl.
  by destruct (executemany_insert rest _) as [[n|e] c'].
Qed.

Lemma executemany_insert_rowcount payload (c : conn) :
  (executemany_insert payload c).1 = Return (Z.of_nat (length payload)).
Proof.
  revert c. induction payload as [|p rest IH]; intros c; [done|].
  rewrite executemany_insert_cons. simpl. rewrite IH. simpl. f_equal. lia.
Qed.

Lemma executemany_insert_state_cons p rest (c : conn) :
  (executemany_insert (p :: rest) c).2 =
  (executemany_insert rest (execute_insert p c).2).2.
Proof.
  rewrite executemany_insert_cons. simpl.
  by destruct (executemany_insert rest _).1.
Qed.


Lemma bulk_add_eq (records : list AIRecord) (c : conn) :
  bulk_add records c =
  let c' := (executemany_insert
               ((λ r, (name r, provider r, description r, capabilities r, tags r))
                  <$> records) c).2 in
  (Return (Z.of_nat (length records)),
   {| db := db c'; durable := db c'; clock_reads := clock_reads c' |}).
Proof.
  unfold bulk_add, bind. simpl.
  pose proof (executemany_insert_rowcount
    ((λ r, (name r, provider r, description r, capabilities r, tags r)) <$> records) c) as Hn.
  destruct (executemany_insert _ c) as [[n|e] c']; simpl in *; [|done].
  injection Hn as ->. by rewrite length_fmap.
Qed.

(** ** Every call leaves a well-formed handle *)

Lemma conn_ok_connect : conn_ok connect.
Proof.
  split; [|split]; [| |done].
  - split; simpl; [done|]. intros i. rewrite dom_empty_L. by intros ?%elem_of_empty.
  - split; [|split]; simpl.
    + by rewrite !dom_empty_L.
    + intros i r. by rewrite lookup_empty.
    + intros i _. by rewrite lookup_empty.
Qed.

Lemma executemany_insert_db_ok payload (c : conn) :
  sequence_bounds (db c) ∧ index_consistent (db c) →
  sequence_bounds (db (executemany_insert payload c).2) ∧
  index_consistent (db (executemany_insert payload c).2).
Proof.
  revert c. induction payload as [|p rest IH]; intros c [Hb Hi]; [done|].
  rewrite executemany_insert_state_cons. apply IH. simpl. split.
  - by apply insert_sequence_bounds.
  - by apply insert_index_consistent.
Qed.

Lemma conn_ok_run_op (o : op) (c : conn) : conn_ok c → conn_ok (run_op o c).
Proof.
  intros (Hb & Hi & Hd). destruct o as [record|records|i| |query limit]; cbn [run_op].
  - rewrite add_ai_eq. unfold conn_ok. cbn [snd db durable]. split; [|split]; [| |done].
    + by apply insert_sequence_bounds.
    + by apply insert_index_consistent.
  - rewrite bulk_add_eq. unfold conn_ok. cbn [snd db durable].
    destruct (executemany_insert_db_ok
      ((λ r, (name r, provider r, description r, capabilities r, tags r)) <$> records) c)
      as [Hb' Hi']; [done|]. by split; [|split].
  - rewrite remove_eq. unfold conn_ok. cbn [snd db durable]. split; [|split]; [| |done].
    + by apply delete_sequence_bounds.
    + by apply delete_index_consistent.
  - by split; [|split].
  - rewrite search_state. by split; [|split].
Qed.

Lemma run_cons (o : op) (ops : list op) (c : conn) :
  run (o :: ops) c = run ops (run_op o c).
Proof. reflexivity. Qed.

Lemma run_app (ops1 ops2 : list op) (c : conn) :
  run (ops1 ++ ops2) c = run ops2 (run ops1 c).
Proof. unfold run. by rewrite foldl_app. Qed.

Lemma conn_ok_run (ops : list op) (c : conn) : conn_ok c → conn_ok (run ops c).
Proof.
  revert c. induction ops as [|o ops IH]; intros c Hc; [done|].
  rewrite run_cons. by apply IH, conn_ok_run_op.
Qed.

(** ** Searching *)

Lemma fts5_rowids_elem (f : fts5_index) (i : Z) :
  i ∈ fts5_rowids f ↔ ∃ p, p ∈ fts_postings f ∧ p_rowid p = i.
Proof.
  unfold fts5_rowids. rewrite merge_sort_Permutation, elem_of_elements.
  rewrite elem_of_list_to_set, list_elem_of_fmap.
  split; intros (p & Hp & Hq); exists p; by split.
Qed.

Lemma fts5_match_elem (f : fts5_index) (e : fts5_expr) (i : Z) :
  i ∈ fts5_match f e ↔
  fts5_eval e (fts5_entry f i) = true ∧ ∃ p, p ∈ fts_postings f ∧ p_rowid p = i.
Proof. unfold fts5_match. by rewrite list_elem_of_filter, fts5_rowids_elem. Qed.

Lemma search_Some (query : string) (limit : Z) (e : fts5_expr) (c : conn) :
  fts5_parse query = Some e →
  search query limit c = (Return (search_dict <$> select_search (db c) e limit), c).
Proof. intros He. unfold search. by rewrite He. Qed.

Lemma search_None (query : string) (limit : Z) (c : conn) :
  fts5_parse query = None → search query limit c = (Raise OperationalError, c).
Proof. intros He. unfold search. by rewrite He. Qed.



Lemma delete_database_records (i : Z) (d : database) :
  ai_records (delete_database i d).2 = delete i (ai_records d).
Proof.
  destruct (ai_records d !! i) as [old|] eqn:Hi.
  - by rewrite (delete_database_Some _ _ _ Hi).
  - rewrite (delete_database_None _ _ Hi). simpl. symmetry. by apply delete_id.
Qed.

Lemma remove_db (i : Z) (c : conn) :
  db (remove i c).2 = (delete_database i (db c)).2.
Proof. by rewrite remove_eq. Qed.

(** ** The claims *)



(** C10. Frame of [remove]: a call for the id [i] leaves every other id [j]
    as it was: its row, with all field values and [created_at], its index
    entry and its docsize entry. *)
Theorem remove_frame (i j : Z) (c : conn) :
  j ≠ i →
  ai_records (db (remove i c).2) !! j = ai_records (db c) !! j
  ∧ fts5_entry (ai_records_fts (db (remove i c).2)) j =
      fts5_entry (ai_records_fts (db c)) j
  ∧ fts_docsize (ai_records_fts (db (remove i c).2)) !! j =
      fts_docsize (ai_records_fts (db c)) !! j.
Proof.
  intros Hj. rewrite remove_db.
  destruct (ai_records (db c) !! i) as [old|] eqn:Hi.
  - rewrite (delete_database_Some _ _ _ Hi). simpl.
    rewrite fts5_entry_delete_ne, !lookup_delete_ne by done. done.
  - by rewrite (delete_database_None _ _ Hi).
Qed.


#[local] Instance by_score_trans : Transitive by_score.
Proof. intros a b c. unfold by_score. apply score_le_trans. Qed.

#[local] Instance by_score_total : Total by_score.
Proof. intros a b. unfold by_score. apply score_le_total. Qed.


Lemma sql_limit_subseteq {A} (n : Z) (l : list A) : sql_limit n l ⊆ l.
Proof. unfold sql_limit. case_decide; [done|]. apply subseteq_take. Qed.


Lemma join_matches_elem (d : database) (e : fts5_expr) i r s :
  (i, r, s) ∈ join_matches d e ↔
  i ∈ fts5_match (ai_records_fts d) e ∧ ai_records d !! i = Some r
  ∧ s = bm25 (ai_records_fts d) e i.
Proof.
  unfold join_matches. rewrite list_elem_of_omap. split.
  - intros (j & Hj & Hs). destruct (ai_records d !! j) as [r'|] eqn:Hr; [|done].
    simpl in Hs. injection Hs as <- <- <-. done.
  - intros (Hi & Hr & ->). exists i. split; [done|]. by rewrite Hr.
Qed.




(** ** Identifiers *)

Lemma executemany_ids_cons p rest (c : conn) :
  executemany_ids (p :: rest) c =
  next_rowid (db c) :: executemany_ids rest (execute_insert p c).2.
Proof. reflexivity. Qed.

Lemma execute_insert_db p (c : conn) :
  db (execute_insert p c).2 =
  (insert_database p (current_timestamp (clock_reads c)) (db c)).2.
Proof. reflexivity. Qed.

Lemma delete_database_sequence (i : Z) (d : database) :
  sqlite_sequence (delete_database i d).2 = sqlite_sequence d.
Proof.
  destruct (ai_records d !! i) as [old|] eqn:Hi.
  - by rewrite (delete_database_Some _ _ _ Hi).
  - by rewrite (delete_database_None _ _ Hi).
Qed.

Lemma executemany_ids_spec payload (c : conn) :
  sequence_bounds (db c) →
  StronglySorted Z.lt (executemany_ids payload c)
  ∧ (∀ i, i ∈ executemany_ids payload c →
       sqlite_sequence (db c) < i ≤ sqlite_sequence (db (executemany_insert payload c).2))
  ∧ sqlite_sequence (db c) ≤ sqlite_sequence (db (executemany_insert payload c).2)
  ∧ dom (ai_records (db (executemany_insert payload c).2)) =
      dom (ai_records (db c)) ∪ list_to_set (executemany_ids payload c).
Proof.
  revert c. induction payload as [|p rest IH]; intros c Hb.
  - simpl. split; [constructor|]. split; [by intros i ?%elem_of_nil|].
    split; [lia|]. by rewrite (right_id_L ∅ (∪)).
  - rewrite executemany_ids_cons, executemany_insert_state_cons.
    set (c1 := (execute_insert p c).2).
    assert (sequence_bounds (db c1)) as Hb1.
    { unfold c1. rewrite execute_insert_db. by apply insert_sequence_bounds. }
    assert (sqlite_sequence (db c1) = next_rowid (db c)) as Hs1 by done.
    assert (dom (ai_records (db c1)) = {[next_rowid (db c)]} ∪ dom (ai_records (db c)))
      as Hd1.
    { unfold c1. rewrite execute_insert_db, insert_database_eq. simpl.
      by rewrite dom_insert_L. }
    pose proof (next_rowid_bounded _ Hb) as Hn.
    destruct (IH c1 Hb1) as (Hsorted & Hrange & Hmono & Hdom).
    split; [|split; [|split]].
    + constructor; [done|]. apply Forall_forall. intros i Hi%Hrange. lia.
    + intros i [->|Hi%Hrange]%elem_of_cons; lia.
    + lia.
    + rewrite Hdom, Hd1, list_to_set_cons.
      rewrite (comm_L (∪) {[next_rowid (db c)]} (dom (ai_records (db c)))).
      by rewrite (assoc_L (∪)).
Qed.

Lemma run_op_payload (o : op) (c : conn) :
  sqlite_sequence (db (run_op o c)) =
    sqlite_sequence (db (executemany_insert (op_payload o) c).2)
  ∧ dom (ai_records (db (run_op o c))) ⊆
      dom (ai_records (db (executemany_insert (op_payload o) c).2)).
Proof.
  destruct o as [record|records|i| |query limit]; cbn [run_op op_payload].
  - done.
  - by rewrite bulk_add_eq.
  - rewrite remove_db, delete_database_sequence, delete_database_records.
    split; [done|]. rewrite dom_delete_L. apply subseteq_difference_l. done.
  - done.
  - by rewrite search_state.
Qed.

Lemma run_op_sequence_bounds (o : op) (c : conn) :
  sequence_bounds (db c) → sequence_bounds (db (run_op o c)).
Proof.
  intros Hb. destruct o as [record|records|i| |query limit]; cbn [run_op].
  - rewrite add_ai_eq. cbn [snd db]. by apply insert_sequence_bounds.
  - rewrite bulk_add_eq. cbn [snd db]. clear -Hb.
    generalize ((λ r, (name r, provider r, description r, capabilities r, tags r))
                  <$> records).
    intros payload. revert c Hb. induction payload as [|p rest IH]; intros c Hb; [done|].
    rewrite executemany_insert_state_cons. apply IH.
    rewrite execute_insert_db. by apply insert_sequence_bounds.
  - rewrite remove_db. by apply delete_sequence_bounds.
  - done.
  - by rewrite search_state.
Qed.

Lemma assigned_ids_app (ops1 ops2 : list op) (c : conn) :
  assigned_ids (ops1 ++ ops2) c =
  assigned_ids ops1 c ++ assigned_ids ops2 (run ops1 c).
Proof.
  revert c. induction ops1 as [|o ops1 IH]; intros c; [done|].
  simpl. rewrite IH. by rewrite (assoc_L (++)).
Qed.

Lemma assigned_ids_spec (ops : list op) (c : conn) :
  sequence_bounds (db c) →
  StronglySorted Z.lt (assigned_ids ops c)
  ∧ (∀ i, i ∈ assigned_ids ops c →
       sqlite_sequence (db c) < i ≤ sqlite_sequence (db (run ops c)))
  ∧ sqlite_sequence (db c) ≤ sqlite_sequence (db (run ops c))
  ∧ dom (ai_records (db (run ops c))) ⊆
      dom (ai_records (db c)) ∪ list_to_set (assigned_ids ops c).
Proof.
  revert c. induction ops as [|o ops IH]; intros c Hb.
  - simpl. split; [constructor|]. split; [by intros i ?%elem_of_nil|].
    split; [lia|]. apply union_subseteq_l.
  - rewrite run_cons. cbn [assigned_ids].
    destruct (executemany_ids_spec (op_payload o) c Hb) as (Hs1 & Hr1 & Hm1 & Hd1).
    destruct (run_op_payload o c) as [Hseq Hdom]. rewrite <- Hseq in Hr1, Hm1.
    destruct (IH (run_op o c) (run_op_sequence_bounds o c Hb)) as (Hs2 & Hr2 & Hm2 & Hd2).
    split; [|split; [|split]].
    + apply StronglySorted_app_2; [|done..].
      intros i j Hi%Hr1 Hj%Hr2. lia.
    + intros i [Hi%Hr1|Hi%Hr2]%elem_of_app; lia.
    + lia.
    + intros i Hi. apply Hd2 in Hi. rewrite list_to_set_app_L.
      apply elem_of_union in Hi as [Hi|Hi].
      * apply Hdom in Hi. rewrite Hd1 in Hi.
        apply elem_of_union in Hi as [Hi|Hi].
        -- by apply elem_of_union_l.
        -- by apply elem_of_union_r, elem_of_union_l.
      * by apply elem_of_union_r, elem_of_union_r.
Qed.

Lemma returned_sublist_assigned (ops : list op) (c : conn) :
  returned_ids ops c `sublist_of` assigned_ids ops c.
Proof.
  revert c. induction ops as [|o ops IH]; intros c; [constructor|].
  destruct o as [record|records|i| |query limit]; cbn [returned_ids assigned_ids].
  - rewrite add_ai_eq. cbv zeta. cbn [op_payload run_op].
    rewrite add_ai_eq. cbv zeta. cbn [snd app executemany_ids].
    apply sublist_skip, IH.
  - apply sublist_inserts_l, IH.
  - apply sublist_inserts_l, IH.
  - apply sublist_inserts_l, IH.
  - apply sublist_inserts_l, IH.
Qed.

Lemma StronglySorted_sublist {A} (R : relation A) (l1 l2 : list A) :
  l1 `sublist_of` l2 → StronglySorted R l2 → StronglySorted R l1.
Proof.
  induction 1 as [|x l1 l2 Hsub IH|x l1 l2 Hsub IH]; intros Hl2; [done|..].
  - apply StronglySorted_cons in Hl2 as [Hx Hl2]. constructor; [by apply IH|].
    apply Forall_forall. intros y Hy. rewrite Forall_forall in Hx.
    apply Hx. by eapply elem_of_sublist.
  - apply StronglySorted_cons in Hl2 as [_ Hl2]. by apply IH.
Qed.

Lemma sequence_bounds_connect : sequence_bounds (db connect).
Proof. apply conn_ok_connect. Qed.

(** C4. Identity monotonicity: in any session on a new database the ids
    returned by the successive calls of [add_ai] are strictly increasing; so
    are all the ids given to rows, those of [bulk_add] included, whatever
    was removed in between: an id given out once is below every id given
    out later, and is never given out again. *)
Theorem identity_monotonicity (ops : list op) :
  StronglySorted Z.lt (returned_ids ops connect)
  ∧ StronglySorted Z.lt (assigned_ids ops connect)
  ∧ returned_ids ops connect `sublist_of` assigned_ids ops connect
  ∧ NoDup (assigned_ids ops connect)
  ∧ (∀ ops1 ops2 i j,
       ops = ops1 ++ ops2 →
       i ∈ assigned_ids ops1 connect →
       j ∈ assigned_ids ops2 (run ops1 connect) →
       i < j).
Proof.
  destruct (assigned_ids_spec ops connect sequence_bounds_connect) as (Hs & _).
  pose proof (returned_sublist_assigned ops connect) as Hsub.
  split; [by eapply StronglySorted_sublist|]. split; [done|]. split; [done|].
  split.
  - clear Hsub. induction Hs as [|i l Hl IH Hi]; constructor; [|done].
    rewrite Forall_forall in Hi. intros Hin%Hi. lia.
  - intros ops1 ops2 i j -> Hi Hj. rewrite assigned_ids_app in Hs.
    by eapply StronglySorted_app_1_elem_of.
Qed.

(** ** Listing *)

#[local] Instance id_le_trans : Transitive id_le.
Proof. intros a b c. unfold id_le. lia. Qed.

#[local] Instance id_le_total : Total id_le.
Proof. intros a b. unfold id_le. lia. Qed.

Lemma select_ordered_elem (d : database) i r :
  (i, r) ∈ select_ordered_by_id d ↔ ai_records d !! i = Some r.
Proof.
  unfold select_ordered_by_id.
  by rewrite merge_sort_Permutation, elem_of_map_to_list.
Qed.







(** ** Bulk insertion *)


Lemma bulk_add_state (records : list AIRecord) (c : conn) :
  (bulk_add records c).2 =
  commit_state (executemany_insert (payload_of <$> records) c).2.
Proof. by rewrite bulk_add_eq. Qed.



Lemma executemany_insert_keeps payload (c : conn) (j : Z) :
  sequence_bounds (db c) → j ≤ sqlite_sequence (db c) →
  ai_records (db (executemany_insert payload c).2) !! j = ai_records (db c) !! j.
Proof.
  revert c. induction payload as [|p rest IH]; intros c Hb Hj; [done|].
  rewrite executemany_insert_state_cons.
  pose proof (next_rowid_bounded _ Hb) as Hn.
  rewrite IH.
  - rewrite execute_insert_db, insert_database_eq. cbn [snd ai_records].
    apply lookup_insert_ne. lia.
  - rewrite execute_insert_db. by apply insert_sequence_bounds.
  - rewrite execute_insert_db, insert_database_eq. cbn [snd sqlite_sequence]. lia.
Qed.


Lemma executemany_ids_length payload (c : conn) :
  length (executemany_ids payload c) = length payload.
Proof.
  revert c. induction payload as [|p rest IH]; intros c; [done|].
  rewrite executemany_ids_cons. simpl. by rewrite IH.
Qed.



(** ** More on searching *)

Lemma select_search_unlimited (d : database) (e : fts5_expr) (limit : Z) :
  limit < 0 → select_search d e limit = merge_sort by_score (join_matches d e).
Proof. intros Hl. unfold select_search, sql_limit. by rewrite decide_True. Qed.

Lemma fts5_entry_nonempty (f : fts5_index) (i : Z) :
  (∃ p, p ∈ fts_postings f ∧ p_rowid p = i) ↔ fts5_entry f i ≠ [].
Proof.
  split.
  - intros (p & Hp & Hi) Hnil.
    assert (p ∈ fts5_entry f i) as Hin by by apply fts5_entry_elem.
    rewrite Hnil in Hin. by apply elem_of_nil in Hin.
  - destruct (fts5_entry f i) as [|p l] eqn:He; [done|]. intros _.
    exists p. apply fts5_entry_elem. rewrite He. apply list_elem_of_here.
Qed.

Lemma unlimited_hits (d : database) (e : fts5_expr) i r s :
  index_consistent d →
  (i, r, s) ∈ merge_sort by_score (join_matches d e) ↔
  ai_records d !! i = Some r
  ∧ s = bm25 (ai_records_fts d) e i
  ∧ row_postings i (indexed_values r) ≠ []
  ∧ fts5_eval e (row_postings i (indexed_values r)) = true.
Proof.
  intros (_ & Hlive & _).
  rewrite merge_sort_Permutation, join_matches_elem, fts5_match_elem.
  rewrite fts5_entry_nonempty. split.
  - intros ((Hev & Hne) & Hr & ->). destruct (Hlive i r Hr) as [Hentry _].
    rewrite Hentry in Hev, Hne. done.
  - intros (Hr & -> & Hne & Hev). destruct (Hlive i r Hr) as [Hentry _].
    rewrite Hentry. done.
Qed.








(** X4. After [remove] of an id neither [list_all] nor any [search] returns
    an entry with that id, whatever the database was. *)
Theorem removed_id_not_returned (i : Z) (query : string) (limit : Z) (c : conn) :
  (∀ rows, (list_all (remove i c).2).1 = Return rows →
     Forall (λ d, dict_get "id" d ≠ Some (VInt i)) rows)
  ∧ (∀ res, (search query limit (remove i c).2).1 = Return res →
       Forall (λ d, dict_get "id" d ≠ Some (VInt i)) res).
Proof.
  assert (ai_records (db (remove i c).2) !! i = None) as Hgone.
  { rewrite remove_db, delete_database_records. apply lookup_delete_eq. }
  split.
  - intros rows [= <-]. apply Forall_fmap, Forall_forall.
    intros [j r] Hj%select_ordered_elem. simpl. intros [= ->]. congruence.
  - intros res Hres. unfold search in Hres.
    destruct (fts5_parse query) as [e|]; [|done]. injection Hres as <-.
    apply Forall_fmap, Forall_forall. intros [[j r] s] Hj. simpl.
    apply sql_limit_subseteq in Hj. rewrite merge_sort_Permutation in Hj.
    apply join_matches_elem in Hj as (_ & Hr & _). intros [= ->]. congruence.
Qed.

(** X5. A record that was added is found: in a session on a new database,
    when [add_ai] has returned an id, a query whose expression holds of the
    tokens of the record's five fields (there is at least one token)
    returns, without a limit, an entry with that id and those fields. *)
Theorem added_record_is_found (ops : list op) (record : AIRecord)
    (query : string) (e : fts5_expr) (id : Z) :
  fts5_parse query = Some e →
  (add_ai record (run ops connect)).1 = Return id →
  row_postings id [name record; provider record; description record;
                   capabilities record; tags record] ≠ [] →
  fts5_eval e (row_postings id [name record; provider record; description record;
                                capabilities record; tags record]) = true →
  ∃ (res : list dict) (entry : dict),
    (search query (-1) (add_ai record (run ops connect)).2).1 = Return res
    ∧ entry ∈ res
    ∧ dict_get "id" entry = Some (VInt id)
    ∧ dict_get "name" entry = Some (VText (name record))
    ∧ dict_get "provider" entry = Some (VText (provider record))
    ∧ dict_get "description" entry = Some (VText (description record))
    ∧ dict_get "capabilities" entry = Some (VText (capabilities record))
    ∧ dict_get "tags" entry = Some (VText (tags record)).
Proof.
  intros Hparse Hid Hne Hev. set (c := run ops connect) in *.
  rewrite add_ai_eq in Hid. cbv zeta in Hid. cbn [fst] in Hid. injection Hid as <-.
  set (new := stored_row record (current_timestamp (clock_reads c))).
  exists (search_dict <$> select_search (db (add_ai record c).2) e (-1)),
    (search_dict (next_rowid (db c), new,
                  bm25 (ai_records_fts (db (add_ai record c).2)) e (next_rowid (db c)))).
  split; [by rewrite (search_Some _ _ _ _ Hparse)|].
  split; [|by repeat split].
  apply list_elem_of_fmap. eexists. split; [done|].
  rewrite select_search_unlimited by lia. apply unlimited_hits.
  - pose proof (conn_ok_run_op (OpAdd record) c
                  (conn_ok_run ops connect conn_ok_connect)) as (_ & Hi & _).
    done.
  - split; [|done]. rewrite add_ai_eq. cbn [snd db]. rewrite insert_database_eq.
    cbn [snd ai_records]. by rewrite lookup_insert_eq.
Qed.

(** ** More on identifiers and rows *)

Lemma executemany_ids_seqZ payload (c : conn) :
  sequence_bounds (db c) →
  executemany_ids payload c =
    seqZ (sqlite_sequence (db c) + 1) (Z.of_nat (length payload))
  ∧ sqlite_sequence (db (executemany_insert payload c).2) =
      sqlite_sequence (db c) + Z.of_nat (length payload).
Proof.
  revert c. induction payload as [|p rest IH]; intros c Hb.
  - simpl. split; [done|lia].
  - rewrite executemany_ids_cons, executemany_insert_state_cons.
    pose proof (next_rowid_bounded _ Hb) as Hn.
    assert (sequence_bounds (db (execute_insert p c).2)) as Hb1.
    { rewrite execute_insert_db. by apply insert_sequence_bounds. }
    assert (sqlite_sequence (db (execute_insert p c).2) = next_rowid (db c)) as Hs1
      by done.
    destruct (IH _ Hb1) as [Hids Hseq]. rewrite Hids, Hseq, Hs1, Hn.
    split; [|simpl length; lia].
    rewrite (seqZ_cons (sqlite_sequence (db c) + 1)) by (simpl length; lia).
    f_equal. f_equal; simpl length; lia.
Qed.

Lemma assigned_ids_seqZ (ops : list op) (c : conn) :
  sequence_bounds (db c) →
  assigned_ids ops c =
    seqZ (sqlite_sequence (db c) + 1) (Z.of_nat (length (assigned_ids ops c)))
  ∧ sqlite_sequence (db (run ops c)) =
      sqlite_sequence (db c) + Z.of_nat (length (assigned_ids ops c)).
Proof.
  revert c. induction ops as [|o ops IH]; intros c Hb.
  - simpl. split; [done|lia].
  - rewrite run_cons. cbn [assigned_ids].
    destruct (executemany_ids_seqZ (op_payload o) c Hb) as [Hids Hseq].
    destruct (run_op_payload o c) as [Hseq' _]. rewrite <- Hseq' in Hseq.
    destruct (IH (run_op o c) (run_op_sequence_bounds o c Hb)) as [Hids2 Hseq2].
    rewrite length_app, Nat2Z.inj_add.
    assert (length (executemany_ids (op_payload o) c) = length (op_payload o)) as Hlen
      by apply executemany_ids_length.
    split.
    + rewrite seqZ_app by lia. rewrite Hlen, <- Hids. f_equal.
      rewrite Hids2 at 1. f_equal. lia.
    + rewrite Hseq2, Hseq, Hlen. lia.
Qed.

(** X6. In a session on a new database the rows get the ids 1, 2, 3, ... in
    the order of their insertion, by [add_ai] and [bulk_add] alike and
    whatever is removed; the AUTOINCREMENT mark is the number of rows ever
    inserted, and every id that [add_ai] returns is positive. *)
Theorem ids_count_from_one (ops : list op) :
  assigned_ids ops connect =
    seqZ 1 (Z.of_nat (length (assigned_ids ops connect)))
  ∧ sqlite_sequence (db (run ops connect)) =
      Z.of_nat (length (assigned_ids ops connect))
  ∧ Forall (λ id, 0 < id) (returned_ids ops connect).
Proof.
  destruct (assigned_ids_seqZ ops connect sequence_bounds_connect) as [Hids Hseq].
  split; [done|]. split; [done|].
  apply Forall_forall. intros id Hid.
  pose proof (elem_of_sublist _ _ _ Hid (returned_sublist_assigned ops connect)) as Hin.
  rewrite Hids in Hin. apply elem_of_seqZ in Hin.
  change (sqlite_sequence (db connect)) with 0 in Hin. lia.
Qed.

Lemma select_search_ext (d1 d2 : database) (e : fts5_expr) (limit : Z) :
  ai_records d1 = ai_records d2 → ai_records_fts d1 = ai_records_fts d2 →
  select_search d1 e limit = select_search d2 e limit.
Proof.
  intros Ht Hf. unfold select_search, join_matches. by rewrite Ht, Hf.
Qed.

Lemma search_ext (query : string) (limit : Z) (c1 c2 : conn) :
  ai_records (db c1) = ai_records (db c2) →
  ai_records_fts (db c1) = ai_records_fts (db c2) →
  (search query limit c1).1 = (search query limit c2).1.
Proof.
  intros Ht Hf. unfold search. destruct (fts5_parse query) as [e|]; [|done].
  cbn [fst]. by rewrite (select_search_ext _ _ _ _ Ht Hf).
Qed.

Lemma list_all_ext (c1 c2 : conn) :
  ai_records (db c1) = ai_records (db c2) → (list_all c1).1 = (list_all c2).1.
Proof. intros Ht. unfold list_all, select_ordered_by_id. cbn [fst]. by rewrite Ht. Qed.

(** X7. Adding a record and removing the id that was returned undoes the
    insertion: in a session on a new database the table and the full-text
    index are again what they were, so [list_all] and every [search] answer
    as before; only the AUTOINCREMENT mark has moved on by one. *)
Theorem add_then_remove_restores (ops : list op) (record : AIRecord) :
  ∃ id : Z,
    (add_ai record (run ops connect)).1 = Return id
    ∧ (remove id (add_ai record (run ops connect)).2).1 = Return true
    ∧ ai_records (db (remove id (add_ai record (run ops connect)).2).2) =
        ai_records (db (run ops connect))
    ∧ ai_records_fts (db (remove id (add_ai record (run ops connect)).2).2) =
        ai_records_fts (db (run ops connect))
    ∧ sqlite_sequence (db (remove id (add_ai record (run ops connect)).2).2) =
        sqlite_sequence (db (run ops connect)) + 1
    ∧ (list_all (remove id (add_ai record (run ops connect)).2).2).1 =
        (list_all (run ops connect)).1
    ∧ (∀ query limit,
         (search query limit (remove id (add_ai record (run ops connect)).2).2).1 =
         (search query limit (run ops connect)).1).
Proof.
  set (c := run ops connect). exists (next_rowid (db c)).
  destruct (conn_ok_run ops connect conn_ok_connect) as (Hb & Hi & _). fold c in Hb, Hi.
  destruct Hi as (_ & _ & Hdead).
  pose proof (next_rowid_fresh (db c)) as Hfresh.
  destruct (Hdead _ Hfresh) as [Hentry Hsize].
  set (new := payload_row (name record, provider record, description record,
                           capabilities record, tags record)
                (current_timestamp (clock_reads c))).
  assert (db (add_ai record c).2 =
          {| ai_records := <[next_rowid (db c) := new]> (ai_records (db c));
             sqlite_sequence := next_rowid (db c);
             ai_records_fts :=
               fts5_insert (next_rowid (db c)) (indexed_values new)
                 (ai_records_fts (db c)) |}) as Hadd by done.
  assert (db (remove (next_rowid (db c)) (add_ai record c).2).2 =
          {| ai_records := delete (next_rowid (db c))
                             (<[next_rowid (db c) := new]> (ai_records (db c)));
             sqlite_sequence := next_rowid (db c);
             ai_records_fts :=
               fts5_delete (next_rowid (db c)) (indexed_values new)
                 (fts5_insert (next_rowid (db c)) (indexed_values new)
                    (ai_records_fts (db c))) |}) as Hrem.
  { rewrite remove_db, Hadd.
    by rewrite (delete_database_Some _ new) by (cbn [ai_records]; apply lookup_insert_eq). }
  assert (ai_records (db (remove (next_rowid (db c)) (add_ai record c).2).2) =
          ai_records (db c)) as Ht.
  { rewrite Hrem. cbn [ai_records]. by apply delete_insert_id. }
  assert (ai_records_fts (db (remove (next_rowid (db c)) (add_ai record c).2).2) =
          ai_records_fts (db c)) as Hf.
  { rewrite Hrem. cbn [ai_records_fts]. unfold fts5_delete, fts5_insert.
    cbn [fts_postings fts_docsize].
    destruct (ai_records_fts (db c)) as [ps ds] eqn:Hfts. f_equal.
    - cbn [fts_postings]. rewrite filter_app.
      rewrite (filter_none _ (row_postings _ _)).
      + rewrite app_nil_r. apply filter_all. intros p Hp [Hid _].
        assert (p ∈ fts5_entry {| fts_postings := ps; fts_docsize := ds |}
                      (next_rowid (db c))) as Hin by by apply fts5_entry_elem.
        rewrite Hentry in Hin. by apply elem_of_nil in Hin.
      + intros p Hp%row_postings_spec. tauto.
    - cbn [fts_docsize] in *. by apply delete_insert_id. }
  split; [done|]. split.
  { rewrite remove_eq. cbn [fst]. f_equal. apply bool_decide_eq_true_2.
    rewrite Hadd. cbn [ai_records]. rewrite lookup_insert_eq. by eexists. }
  split; [done|]. split; [done|]. split.
  { rewrite Hrem. cbn [sqlite_sequence]. by apply next_rowid_bounded. }
  split; [by apply list_all_ext|]. intros query limit. by apply search_ext.
Qed.


(** ** Batches, reopening, updates *)




(** X10. Nothing is lost at [close]: after any session on a new database,
    opening the file that the closed handle leaves gives a well-formed
    connection on the same database, so [list_all] and every [search]
    answer as before the close. *)
Theorem reopen_keeps_database (ops : list op) (reads : nat) :
  db (open_at (Some (close (run ops connect))) reads) = db (run ops connect)
  ∧ conn_ok (open_at (Some (close (run ops connect))) reads)
  ∧ (list_all (open_at (Some (close (run ops connect))) reads)).1 =
      (list_all (run ops connect)).1
  ∧ (∀ query limit,
       (search query limit (open_at (Some (close (run ops connect))) reads)).1 =
       (search query limit (run ops connect)).1).
Proof.
  destruct (conn_ok_run ops connect conn_ok_connect) as (Hb & Hi & Hd).
  assert (db (open_at (Some (close (run ops connect))) reads) =
          db (run ops connect)) as Hdb by done.
  split; [done|]. split; [|split].
  - unfold conn_ok. rewrite Hdb. split; [done|]. split; [done|].
    unfold open_at, close. simpl. done.
  - apply list_all_ext. by rewrite Hdb.
  - intros query limit. apply search_ext; by rewrite Hdb.
Qed.



Lemma run_op_keeps_row (o : op) (c : conn) (i : Z) :
  sequence_bounds (db c) → i ≤ sqlite_sequence (db c) →
  (ai_records (db (run_op o c)) !! i = ai_records (db c) !! i
   ∨ ai_records (db (run_op o c)) !! i = None)
  ∧ i ≤ sqlite_sequence (db (run_op o c)).
Proof.
  intros Hb Hi.
  destruct (executemany_ids_spec (op_payload o) c Hb) as (_ & _ & Hm & _).
  destruct (run_op_payload o c) as [Hseq _]. split; [|lia].
  destruct o as [record|records|j| |query limit]; cbn [run_op].
  - left. apply (executemany_insert_keeps [payload_of record] c i Hb Hi).
  - left. rewrite bulk_add_state.
    apply (executemany_insert_keeps (payload_of <$> records) c i Hb Hi).
  - rewrite remove_db, delete_database_records.
    destruct (decide (i = j)) as [->|Hne].
    + right. apply lookup_delete_eq.
    + left. by apply lookup_delete_ne.
  - by left.
  - left. by rewrite search_state.
Qed.

(** X13. Rows are never changed in place: in a session on a new database a
    row that is there at some point and still (or again) there later has
    the same field values and the same [created_at]; an id whose row was
    removed stays without a row. *)
Theorem rows_are_immutable (ops1 ops2 : list op) (i : Z) (r : row) :
  ai_records (db (run ops1 connect)) !! i = Some r →
  ai_records (db (run (ops1 ++ ops2) connect)) !! i = Some r
  ∨ ai_records (db (run (ops1 ++ ops2) connect)) !! i = None.
Proof.
  intros Hr. rewrite run_app.
  destruct (conn_ok_run ops1 connect conn_ok_connect) as (Hb & _ & _).
  assert (i ≤ sqlite_sequence (db (run ops1 connect))) as Hi.
  { destruct Hb as [_ Hb]. apply elem_of_dom_2 in Hr. apply Hb in Hr. lia. }
  assert (ai_records (db (run ops1 connect)) !! i = Some r
          ∨ ai_records (db (run ops1 connect)) !! i = None) as Hor by by left.
  clear Hr. revert Hb Hi Hor. generalize (run ops1 connect). clear ops1.
  induction ops2 as [|o ops IH]; intros c Hb Hi Hor; [done|].
  rewrite run_cons.
  destruct (run_op_keeps_row o c i Hb Hi) as [Hkeep Hi'].
  apply IH; [by apply run_op_sequence_bounds|done|].
  destruct Hkeep as [-> | ->]; [done|by right].
Qed.

(** ** The listing after a batch *)








End Facts.

(** * The command line *)

Section CliFacts.
Context {engine : Engine} (score_text : score → string).

Lemma run_command_state (cmd : command) (c : conn) :
  (run_command score_text cmd c).2 = run_op (command_op cmd) c.
Proof.
  destruct cmd as [n p d ca t|query limit| |id]; cbn [run_command command_op run_op];
    unfold bind.
  - by destruct (add_ai _ c) as [[rid|err] c'].
  - by destruct (search query limit c) as [[res|err] c'].
  - by destruct (list_all c) as [[rows|err] c'].
  - by destruct (remove id c) as [[b|err] c'].
Qed.

Lemma run_op_durable (o : op) (c : conn) :
  durable c = db c → durable (run_op o c) = db (run_op o c).
Proof.
  intros Hd. destruct o as [record|records|i| |query limit]; cbn [run_op].
  - by rewrite add_ai_eq.
  - by rewrite bulk_add_eq.
  - by rewrite remove_eq.
  - done.
  - by rewrite search_state.
Qed.

Lemma main_world (args : namespace) (w : world) :
  (main score_text args w).2 =
  {| files := <[args_db args :=
                 db (run_op (command_op (args_command args))
                       (open_at (files w !! args_db args) (clock w)))]> (files w);
     clock := clock_reads (run_op (command_op (args_command args))
                             (open_at (files w !! args_db args) (clock w))) |}.
Proof.
  unfold main. cbn [snd]. rewrite run_command_state. unfold close.
  by rewrite run_op_durable.
Qed.









Lemma list_line_row (i : Z) (r : row) :
  list_line score_text (list_all_dict (i, r)) =
  ("[" +:+ pretty i +:+ "] " +:+ col_name r +:+ " (" +:+ col_provider r +:+ ")")%string.
Proof. reflexivity. Qed.



(** X16. The [list] and [search] commands write no row: they leave at
    [args.db] the database that was there, or a new empty one when there
    was none, and every other file and the clock as they were; a [search]
    whose query the parser refuses ends in the exception, with nothing
    printed. *)
Theorem cli_queries_leave_data (path : string) (query : string) (limit : Z)
    (w : world) :
  (main score_text {| args_db := path; args_command := CmdList |} w).2 =
    {| files := <[path := file_db w path]> (files w); clock := clock w |}
  ∧ (main score_text
       {| args_db := path; args_command := CmdSearch query limit |} w).2 =
      {| files := <[path := file_db w path]> (files w); clock := clock w |}
  ∧ (is_Some (files w !! path) →
     <[path := file_db w path]> (files w) = files w)
  ∧ (fts5_parse query = None →
     (main score_text
        {| args_db := path; args_command := CmdSearch query limit |} w).1 =
       Raise OperationalError).
Proof.
  split; [done|]. split; [|split].
  - rewrite main_world. cbn [args_db args_command command_op run_op].
    by rewrite search_state.
  - intros [d Hd]. unfold file_db. rewrite Hd. by apply insert_id.
  - intros Hq. unfold main, run_command, bind. cbn [args_command fst].
    by rewrite (search_None _ _ _ Hq).
Qed.


Lemma search_lines_hit (i : Z) (r : row) (s : score) :
  search_lines score_text (search_dict (i, r, s)) =
  ["[" +:+ pretty i +:+ "] " +:+ col_name r +:+ " (" +:+ col_provider r
     +:+ ") - " +:+ col_description r;
   "  capabilities: " +:+ col_capabilities r;
   "  tags: " +:+ col_tags r;
   "  score: " +:+ score_text s]%string.
Proof. reflexivity. Qed.




End CliFacts.

(** * The tests of the repository and the scenarios of the specification,
    run on the small engine *)

Section Scenarios.
#[local] Existing Instance Demo.engine.

Example test_add_and_list :
  (add_ai Demo.vision connect).1 = Return 1
  ∧ (list_all Demo.one_record).1 =
      Return [[("id", VInt 1); ("name", VText "VisionBot");
               ("provider", VText "LocalLab");
               ("description", VText "Image analysis assistant");
               ("capabilities", VText "vision,ocr");
               ("tags", VText "offline,image");
               ("created_at", VText "2024-01-01 00:00:00")]]%string.
Proof. split; reflexivity. Qed.

Example test_bulk_add_and_search :
  (bulk_add [Demo.math; Demo.code] connect).1 = Return 2
  ∧ (search_default "coding OR algebra" Demo.two_records).1 =
      Return [[("id", VInt 1); ("name", VText "MathAI");
               ("provider", VText "EdgeCorp");
               ("description", VText "Math solver");
               ("capabilities", VText "reasoning,algebra");
               ("tags", VText "offline,math");
               ("score", VReal (-1 : @score Demo.engine))];
              [("id", VInt 2); ("name", VText "CodeAI");
               ("provider", VText "EdgeCorp");
               ("description", VText "Code helper");
               ("capabilities", VText "coding,debug");
               ("tags", VText "offline,dev");
               ("score", VReal (-1 : @score Demo.engine))]]%string.
Proof. split; reflexivity. Qed.

Example test_remove :
  (remove 1 (add_ai Demo.chat connect).2).1 = Return true
  ∧ (list_all (remove 1 (add_ai Demo.chat connect).2).2).1 = Return []
  ∧ (search "chat" 20 (remove 1 (add_ai Demo.chat connect).2).2).1 = Return [].
Proof. repeat split; reflexivity. Qed.

Example scenario_limit_one :
  (search "coding OR algebra OR offline" 1 Demo.two_records).1 =
    Return [[("id", VInt 1); ("name", VText "MathAI");
             ("provider", VText "EdgeCorp");
             ("description", VText "Math solver");
             ("capabilities", VText "reasoning,algebra");
             ("tags", VText "offline,math");
             ("score", VReal (-2 : @score Demo.engine))]]%string.
Proof. reflexivity. Qed.

Example scenario_remove_absent : (remove 999 connect).1 = Return false.
Proof. reflexivity. Qed.

Example scenario_unbalanced_query :
  (search "coding OR" 20 Demo.two_records).1 = Raise OperationalError.
Proof. reflexivity. Qed.

(** *** The theorems at concrete inputs *)





Lemma remove_frame_witness :
  2 ≠ 1
  ∧ ai_records (db (remove 1 Demo.two_records).2) !! 2 =
      ai_records (db Demo.two_records) !! 2
  ∧ fts5_entry (ai_records_fts (db (remove 1 Demo.two_records).2)) 2 =
      fts5_entry (ai_records_fts (db Demo.two_records)) 2
  ∧ fts_docsize (ai_records_fts (db (remove 1 Demo.two_records).2)) !! 2 =
      fts_docsize (ai_records_fts (db Demo.two_records)) !! 2.
Proof.
  split; [lia|].
  apply (remove_frame (engine := Demo.engine) 1 2 Demo.two_records). lia.
Defined.

Lemma identity_monotonicity_witness :
  returned_ids [OpAdd Demo.vision; OpRemove 1; OpAdd Demo.code] connect = [1; 2]
  ∧ 1 ∈ assigned_ids [OpAdd Demo.vision; OpRemove 1] connect
  ∧ 2 ∈ assigned_ids [OpAdd Demo.code] (run [OpAdd Demo.vision; OpRemove 1] connect)
  ∧ 1 < 2.
Proof.
  assert (assigned_ids [OpAdd Demo.vision; OpRemove 1] connect = [1]) as H1
    by reflexivity.
  assert (assigned_ids [OpAdd Demo.code]
            (run [OpAdd Demo.vision; OpRemove 1] connect) = [2]) as H2
    by reflexivity.
  assert (1 ∈ assigned_ids [OpAdd Demo.vision; OpRemove 1] connect) as Hi
    by (rewrite H1; apply list_elem_of_here).
  assert (2 ∈ assigned_ids [OpAdd Demo.code]
                (run [OpAdd Demo.vision; OpRemove 1] connect)) as Hj
    by (rewrite H2; apply list_elem_of_here).
  split; [reflexivity|]. split; [exact Hi|]. split; [exact Hj|].
  apply (proj2 (proj2 (proj2 (proj2
           (identity_monotonicity (engine := Demo.engine)
              [OpAdd Demo.vision; OpRemove 1; OpAdd Demo.code]))))
           [OpAdd Demo.vision; OpRemove 1] [OpAdd Demo.code] 1 2);
    [reflexivity|exact Hi|exact Hj].
Defined.


(** *** Where the code departs from the specification *)



(** *** The further properties at concrete inputs *)



Example cli_add_prints_id :
  (main Demo.score_text Demo.add_vision Demo.empty_world).1 =
    Return ["Added record ID: 1"]%string
  ∧ (main Demo.score_text {| args_db := "ai.db"; args_command := CmdList |}
       (main Demo.score_text Demo.add_vision Demo.empty_world).2).1 =
      Return ["[1] VisionBot (LocalLab)"]%string
  ∧ (main Demo.score_text
       {| args_db := "ai.db"; args_command := CmdSearch "vision" 20 |}
       (main Demo.score_text Demo.add_vision Demo.empty_world).2).1 =
      Return ["[1] VisionBot (LocalLab) - Image analysis assistant";
              "  capabilities: vision,ocr";
              "  tags: offline,image";
              "  score: -1"]%string
  ∧ (main Demo.score_text {| args_db := "ai.db"; args_command := CmdRemove 7 |}
       (main Demo.score_text Demo.add_vision Demo.empty_world).2).1 =
      Return ["Not found"]%string.
Proof. repeat split; reflexivity. Qed.




Lemma removed_id_not_returned_witness :
  (list_all (remove 1 Demo.two_records).2).1 =
    Return (list_all_dict <$> [(2, stored_row Demo.code (Demo.timestamp 1))])
  ∧ Forall (λ d, dict_get "id" d ≠ Some (VInt 1))
           (list_all_dict <$> [(2, stored_row Demo.code (Demo.timestamp 1))]).
Proof.
  split; [reflexivity|].
  apply (proj1 (removed_id_not_returned (engine := Demo.engine) 1 "offline" 20
                  Demo.two_records)).
  reflexivity.
Defined.

Lemma added_record_is_found_witness :
  fts5_parse "coding" = Some (Demo.Term "coding")
  ∧ (add_ai Demo.code (run [OpAdd Demo.vision] connect)).1 = Return 2
  ∧ ∃ res entry,
      (search "coding" (-1)
         (add_ai Demo.code (run [OpAdd Demo.vision] connect)).2).1 = Return res
      ∧ entry ∈ res
      ∧ dict_get "id" entry = Some (VInt 2)
      ∧ dict_get "name" entry = Some (VText "CodeAI").
Proof.
  split; [reflexivity|]. split; [reflexivity|].
  destruct (added_record_is_found (engine := Demo.engine) [OpAdd Demo.vision]
              Demo.code "coding" (Demo.Term "coding") 2 eq_refl eq_refl)
    as (res & entry & Hs & Hin & Hid & Hname & _).
  - discriminate.
  - reflexivity.
  - exists res, entry. split; [exact Hs|]. split; [exact Hin|].
    split; [exact Hid|exact Hname].
Defined.



Lemma rows_are_immutable_witness :
  ai_records (db (run [OpAdd Demo.vision] connect)) !! 1 =
    Some (stored_row Demo.vision (Demo.timestamp 0))
  ∧ (ai_records (db (run ([OpAdd Demo.vision] ++ [OpAdd Demo.code; OpRemove 2])
                       connect)) !! 1 =
       Some (stored_row Demo.vision (Demo.timestamp 0))
     ∨ ai_records (db (run ([OpAdd Demo.vision] ++ [OpAdd Demo.code; OpRemove 2])
                         connect)) !! 1 = None).
Proof.
  split; [reflexivity|].
  apply (rows_are_immutable (engine := Demo.engine) [OpAdd Demo.vision]
           [OpAdd Demo.code; OpRemove 2] 1).
  reflexivity.
Defined.



Lemma cli_queries_leave_data_witness :
  fts5_parse "coding OR" = None
  ∧ (main Demo.score_text
       {| args_db := "ai.db"; args_command := CmdSearch "coding OR" 20 |}
       Demo.empty_world).1 = Raise OperationalError.
Proof.
  split; [reflexivity|].
  apply (proj2 (proj2 (proj2 (cli_queries_leave_data (engine := Demo.engine)
                                Demo.score_text "ai.db" "coding OR" 20
                                Demo.empty_world)))).
  reflexivity.
Defined.




End Scenarios.
